(** * examples/backend/main.py: the in-memory user directory

    A shallow embedding of the FastAPI example backend.  The module-level
    list [users_db] is the only state; every handler is a computation over
    that list which either returns a value or raises a Python exception.
    Python [int] is [Z]; [str] is [string], one [ascii] per character (the
    code only counts characters and looks for "@", so the 8-bit alphabet
    loses nothing); [float] is an IEEE 754 binary64 number, given by the
    [spec_float] of the standard library. *)

From Stdlib Require Import ZArith List String Ascii Bool Lia.
From Stdlib Require Import SpecFloat.
Import ListNotations.

Local Open Scope string_scope.
Local Open Scope list_scope.
Local Open Scope Z_scope.

(** ** The Python builtins that main.py calls *)

Module Py.

(** The exceptions that can leave a function of main.py. *)
Inductive exn : Type :=
| HTTPException (status_code : Z) (detail : string)
| OverflowError.

Inductive result (A : Type) : Type :=
| Ok (a : A)
| Raise (e : exn).

Arguments Ok {A} a.
Arguments Raise {A} e.

(** [max(iterable, default=d)] on ints: [d] for an empty iterable;
    otherwise the first item starts as the running maximum and a later item
    replaces it only when it is strictly greater. *)
Definition max_step (m y : Z) : Z := if m <? y then y else m.

Definition max_default (l : list Z) (d : Z) : Z :=
  match l with
  | [] => d
  | x :: xs => fold_left max_step xs x
  end.

(** [len(s)] of a [str]: its number of characters. *)
Definition len (s : string) : Z := Z.of_nat (String.length s).

(** The largest length a [str] can have: [sys.maxsize], here that of a
    64-bit build (a 32-bit build allows less). *)
Definition PY_SSIZE_T_MAX : Z := 2 ^ 63 - 1.

(** [needle in hay] on [str]: substring test, scanning the start positions
    from the left. *)
Fixpoint str_in (needle hay : string) : bool :=
  if prefix needle hay then true
  else match hay with
       | EmptyString => false
       | String _ rest => str_in needle rest
       end.

(** binary64 *)
Definition prec : Z := 53.
Definition emax : Z := 1024.

(** [float(z)] of an int: the nearest binary64 number, ties to even;
    OverflowError when that is not finite. *)
Definition float (z : Z) : result spec_float :=
  match binary_normalize prec emax z 0 false with
  | S754_infinity _ => Raise OverflowError
  | S754_nan => Raise OverflowError
  | f => Ok f
  end.

(** The integer a float stands for, when it stands for one
    ([f.is_integer()], and then [int(f)]). *)
Definition float_to_Z (f : spec_float) : option Z :=
  match f with
  | S754_zero _ => Some 0
  | S754_finite s m e =>
      if 0 <=? e then Some (cond_Zopp s (Zpos m * 2 ^ e))
      else if Zpos m mod 2 ^ (- e) =? 0
           then Some (cond_Zopp s (Zpos m / 2 ^ (- e)))
           else None
  | _ => None
  end.

End Py.

Import Py.

(** ** Data models (main.py, lines 14-22) *)

Module User.
Record t : Type := mk
  { id : Z;
    name : string;
    email : string;
    is_active : bool }.

(** [User(id=.., name=.., email=.., is_active=..)]: the last keyword may
    be left out and then defaults to [True]. *)
Definition init (id : Z) (name email : string) (is_active : option bool) : t :=
  mk id name email (match is_active with Some b => b | None => true end).
End User.

Module UserCreate.
Record t : Type := mk
  { name : string;
    email : string }.
End UserCreate.

(** ** The state and the handler monad

    A handler reads or updates the global list and ends with a value or
    with an exception; the list survives an exception. *)

Definition db : Type := list User.t.

Definition M (A : Type) : Type := db -> result A * db.

Definition ret {A} (a : A) : M A := fun s => (Ok a, s).

Definition raise {A} (e : exn) : M A := fun s => (Raise e, s).

Definition bind {A B} (c : M A) (k : A -> M B) : M B :=
  fun s =>
    match c s with
    | (Ok a, s') => k a s'
    | (Raise e, s') => (Raise e, s')
    end.

Definition lift {A} (r : result A) : M A := fun s => (r, s).

(** Reading the global, and [users_db.append(u)]. *)
Definition read_users_db : M db := fun s => (Ok s, s).

Definition users_db_append (u : User.t) : M unit := fun s => (Ok tt, s ++ [u]).

Notation "x <- c ;; k" := (bind c (fun x => k))
  (at level 61, c at next level, right associativity).
Notation "c ;;; k" := (bind c (fun _ => k))
  (at level 61, right associativity).

(** ** In-memory storage (main.py, lines 25-28) *)

Definition users_db : db :=
  [ User.init 1 "John Doe" "john@example.com" None;
    User.init 2 "Jane Smith" "jane@example.com" None ].

(** ** Handlers and helpers (main.py, lines 30-68) *)

Definition root : M string := ret "CodeFlow Buddy Backend API".

(** Returns the list itself, not a copy. *)
Definition get_users : M (list User.t) := read_users_db.

(** The [for user in users_db] loop of [find_user_by_id]. *)
Fixpoint find_loop (user_id : Z) (l : list User.t) : option User.t :=
  match l with
  | [] => None
  | user :: rest =>
      if User.id user =? user_id then Some user else find_loop user_id rest
  end.

Definition find_user_by_id (user_id : Z) : M (option User.t) :=
  l <- read_users_db ;;
  ret (find_loop user_id l).

(** [if not user] is taken exactly when [user] is [None]: a model instance
    is always truthy. *)
Definition get_user (user_id : Z) : M User.t :=
  user <- find_user_by_id user_id ;;
  match user with
  | None => raise (HTTPException 404 "User not found")
  | Some u => ret u
  end.

(** [**user_data.dict()] passes [name=] and [email=]; [is_active] is left
    to its default. *)
Definition create_user (user_data : UserCreate.t) : M User.t :=
  l <- read_users_db ;;
  let new_id := max_default (map User.id l) 0 + 1 in
  let new_user :=
    User.init new_id (UserCreate.name user_data) (UserCreate.email user_data) None in
  users_db_append new_user ;;;
  ret new_user.

Definition calculate_user_score (user : User.t) : M spec_float :=
  let base_score := len (User.name user) * 10 in
  let email_bonus := if str_in "@" (User.email user) then 5 else 0 in
  let active_bonus := if User.is_active user then 20 else 0 in
  lift (float (base_score + email_bonus + active_bonus)).

(** ** The HTTP surface: routing and status codes *)

Inductive request : Type :=
| GET_root
| GET_users
| GET_user (user_id : Z)
| POST_users (user_data : UserCreate.t).

Inductive response : Type :=
| Message (message : string)
| Users (l : list User.t)
| OneUser (u : User.t).

Definition handle (r : request) : M response :=
  match r with
  | GET_root => m <- root ;; ret (Message m)
  | GET_users => l <- get_users ;; ret (Users l)
  | GET_user user_id => u <- get_user user_id ;; ret (OneUser u)
  | POST_users user_data => u <- create_user user_data ;; ret (OneUser u)
  end.

(** The status line the framework answers with: 200 for a returned value,
    the carried code for an [HTTPException], 500 for anything else. *)
Definition status {A} (r : result A) : Z :=
  match r with
  | Ok _ => 200
  | Raise (HTTPException code _) => code
  | Raise _ => 500
  end.

(** Serving a sequence of requests, one after the other, keeping each
    request with what it was answered. *)
Fixpoint serve (rs : list request) (s : db) : list (request * result response) * db :=
  match rs with
  | [] => ([], s)
  | r :: rs' =>
      let '(a, s1) := handle r s in
      let '(tr, s2) := serve rs' s1 in
      ((r, a) :: tr, s2)
  end.

(** The records that the POST /users calls of a trace returned, in order. *)
Fixpoint created (tr : list (request * result response)) : list User.t :=
  match tr with
  | [] => []
  | (POST_users _, Ok (OneUser u)) :: tr' => u :: created tr'
  | _ :: tr' => created tr'
  end.

(** A sequence of [create] calls and nothing else. *)
Fixpoint create_all (ds : list UserCreate.t) : M (list User.t) :=
  match ds with
  | [] => ret []
  | d :: ds' =>
      u <- create_user d ;;
      us <- create_all ds' ;;
      ret (u :: us)
  end.

(** ** Specification vocabulary *)

(** [m] is the greatest element of [l]. *)
Definition is_max (m : Z) (l : list Z) : Prop :=
  In m l /\ forall x, In x l -> x <= m.

(** Some record of the directory carries the id [user_id]. *)
Definition has_id (user_id : Z) (s : db) : Prop :=
  exists u, In u s /\ User.id u = user_id.

(** The ids [first], [first + 1], ... of [n] consecutive records. *)
Definition consecutive_from (first : Z) (n : nat) : list Z :=
  map (fun k => first + Z.of_nat k) (seq 0 n).

(** The directory holds the ids 1, 2, ..., in this order. *)
Definition dense (s : db) : Prop :=
  map User.id s = consecutive_from 1 (List.length s).

(** What [r] holds after the digits of [p] were shifted right [j] times:
    the quotient, the digit shifted out last, and whether a digit shifted
    out before that one was set. *)
Definition shr_tracks (p j : Z) (r : shr_record) : Prop :=
  shr_m r = p / 2 ^ j /\
  shr_r r = Z.testbit p (j - 1) /\
  shr_s r = negb (p mod 2 ^ Z.max 0 (j - 1) =? 0).

(** The email has the character "@" somewhere. *)
Definition contains_at (email : string) : Prop :=
  In "@"%char (list_ascii_of_string email).

(** The score as the specification spells it, before the conversion to a
    float. *)
Definition score_formula (user : User.t) : Z :=
  Z.of_nat (String.length (User.name user)) * 10
  + (if in_dec ascii_dec "@"%char (list_ascii_of_string (User.email user))
     then 5 else 0)
  + (if User.is_active user then 20 else 0).

(** A [str] cannot be longer than the platform allows. *)
Definition valid_user (user : User.t) : Prop :=
  len (User.name user) <= PY_SSIZE_T_MAX.

(** The record of the score scenario. *)
Definition john : User.t := User.mk 1 "John Doe" "john@example.com" true.

(** The requests that are create calls. *)
Definition is_post (r : request) : bool :=
  match r with
  | POST_users _ => true
  | _ => false
  end.

(** ** The builtin [max] *)

Section Max.

Lemma max_step_ge_l (m y : Z) : m <= max_step m y.
Proof. unfold max_step. destruct (Z.ltb_spec m y); lia. Qed.

Lemma max_step_ge_r (m y : Z) : y <= max_step m y.
Proof. unfold max_step. destruct (Z.ltb_spec m y); lia. Qed.

Lemma max_step_cases (m y : Z) : max_step m y = m \/ max_step m y = y.
Proof. unfold max_step. destruct (m <? y); auto. Qed.

Lemma fold_max_ge_start (xs : list Z) : forall x, x <= fold_left max_step xs x.
Proof.
  induction xs as [|y ys IH]; intros x; simpl.
  - lia.
  - pose proof (max_step_ge_l x y). specialize (IH (max_step x y)). lia.
Qed.

Lemma fold_max_upper (xs : list Z) :
  forall x y, In y (x :: xs) -> y <= fold_left max_step xs x.
Proof.
  induction xs as [|z zs IH]; intros x y Hy.
  - destruct Hy as [E|[]]. subst y. simpl. lia.
  - simpl. destruct Hy as [E|[E|Hy]].
    + subst y. pose proof (max_step_ge_l x z).
      pose proof (fold_max_ge_start zs (max_step x z)). lia.
    + subst y. pose proof (max_step_ge_r x z).
      pose proof (fold_max_ge_start zs (max_step x z)). lia.
    + apply IH. now right.
Qed.

Lemma fold_max_in (xs : list Z) : forall x, In (fold_left max_step xs x) (x :: xs).
Proof.
  induction xs as [|z zs IH]; intros x; simpl.
  - now left.
  - destruct (IH (max_step x z)) as [E|E]; [|now auto].
    rewrite <- E.
    destruct (max_step_cases x z) as [C|C]; rewrite C; auto.
Qed.

Lemma max_default_is_max (x : Z) (xs : list Z) (d : Z) :
  is_max (max_default (x :: xs) d) (x :: xs).
Proof.
  split; [apply fold_max_in | intros y Hy; now apply fold_max_upper].
Qed.

Lemma is_max_unique (l : list Z) (m m' : Z) : is_max m l -> is_max m' l -> m = m'.
Proof. intros [I U] [I' U']. apply U' in I. apply U in I'. lia. Qed.

End Max.

(** ** Running the handlers *)

Ltac run :=
  unfold handle, root, get_users, get_user, find_user_by_id, create_user,
    calculate_user_score, bind, ret, raise, lift, read_users_db,
    users_db_append; simpl.

Lemma create_user_eq (d : UserCreate.t) (s : db) :
  create_user d s =
  (let u := User.mk (max_default (map User.id s) 0 + 1)
                    (UserCreate.name d) (UserCreate.email d) true in
   (Ok u, s ++ [u])).
Proof. reflexivity. Qed.

Lemma get_user_eq (user_id : Z) (s : db) :
  get_user user_id s =
  match find_loop user_id s with
  | Some u => (Ok u, s)
  | None => (Raise (HTTPException 404 "User not found"), s)
  end.
Proof. run. now destruct (find_loop user_id s). Qed.

Lemma find_loop_some (user_id : Z) (s : db) (u : User.t) :
  find_loop user_id s = Some u ->
  exists before after,
    s = before ++ u :: after /\ User.id u = user_id /\ ~ has_id user_id before.
Proof.
  induction s as [|v s IH]; simpl; [discriminate|].
  destruct (Z.eqb_spec (User.id v) user_id) as [E|N]; intros H.
  - injection H as <-. exists [], s. repeat split; auto.
    intros [w [[] _]].
  - destruct (IH H) as (before & after & -> & Hid & Hno).
    exists (v :: before), after. repeat split; auto.
    intros [w [[<-|Hw] Hw']]; [contradiction|]. apply Hno. now exists w.
Qed.

Lemma find_loop_none (user_id : Z) (s : db) :
  find_loop user_id s = None <-> ~ has_id user_id s.
Proof.
  induction s as [|v s IH]; simpl.
  - split; [intros _ [w [[] _]] | reflexivity].
  - destruct (Z.eqb_spec (User.id v) user_id) as [E|N].
    + split; [discriminate|]. intros H. exfalso. apply H. exists v. simpl. auto.
    + rewrite IH. split; intros H [w [Hw Hw']].
      * destruct Hw as [<-|Hw]; [contradiction|]. apply H. now exists w.
      * apply H. exists w. simpl. auto.
Qed.

(** ** The seed state and the scenario of the specification *)

Example seed_ids : map User.id users_db = [1; 2].
Proof. reflexivity. Qed.

Example scenario_status :
  map (fun a => status (snd a))
      (fst (serve [GET_user 1; GET_user 99;
                   POST_users (UserCreate.mk "Ann" "ann@example.com");
                   GET_users] users_db))
  = [200; 404; 200; 200].
Proof. reflexivity. Qed.

Example scenario_ids :
  map User.id
      (snd (serve [GET_user 1; GET_user 99;
                   POST_users (UserCreate.mk "Ann" "ann@example.com");
                   GET_users] users_db))
  = [1; 2; 3].
Proof. reflexivity. Qed.

(** ** create: the id rule *)

(** C1. Whatever the directory holds, [create_user] returns a record whose
    id is 1 when the directory has no records and otherwise one more than
    the greatest id among the records held before the call. *)
Theorem create_user_assigns_max_plus_one (user_data : UserCreate.t) (s : db) :
  exists u,
    fst (create_user user_data s) = Ok u /\
    match s with
    | [] => User.id u = 1
    | _ :: _ => exists m, is_max m (map User.id s) /\ User.id u = m + 1
    end.
Proof.
  rewrite create_user_eq. cbv zeta. eexists. split; [reflexivity|].
  destruct s as [|v s]; [reflexivity|].
  exists (max_default (map User.id (v :: s)) 0). split; [|reflexivity].
  apply max_default_is_max.
Qed.

(** ** get: found or 404 *)

(** C2. For every directory and every integer id: when some record has the
    id, [get_user] returns a record of the directory with that id, namely
    the first one in the sequence; it raises the 404 HTTPException exactly
    when no record has the id, and it raises nothing else. *)
Theorem get_user_found_or_404 (user_id : Z) (s : db) :
  (has_id user_id s ->
   exists u before after,
     fst (get_user user_id s) = Ok u /\ User.id u = user_id /\
     s = before ++ u :: after /\ ~ has_id user_id before) /\
  (fst (get_user user_id s) = Raise (HTTPException 404 "User not found")
   <-> ~ has_id user_id s) /\
  (status (fst (get_user user_id s)) = 404 <-> ~ has_id user_id s) /\
  (forall e, fst (get_user user_id s) = Raise e ->
             e = HTTPException 404 "User not found").
Proof.
  rewrite get_user_eq.
  destruct (find_loop user_id s) as [u|] eqn:F; simpl.
  - destruct (find_loop_some _ _ _ F) as (before & after & Hs & Hid & Hno).
    assert (Hhas : has_id user_id s).
    { exists u. split; [|assumption]. rewrite Hs. apply in_or_app. simpl. auto. }
    repeat split; try discriminate; try (intros H; now exfalso).
    intros _. now exists u, before, after.
  - apply find_loop_none in F.
    repeat split; auto; try (intros; contradiction).
    intros e [= <-]. reflexivity.
Qed.

(** Witness for C2 on the seed state: id 2 is found behind id 1. *)
Lemma get_user_found_or_404_witness :
  exists u before after,
    fst (get_user 2 users_db) = Ok u /\ User.id u = 2 /\
    users_db = before ++ u :: after /\ ~ has_id 2 before.
Proof.
  apply (proj1 (get_user_found_or_404 2 users_db)).
  exists (User.mk 2 "Jane Smith" "jane@example.com" true).
  split; [simpl; auto | reflexivity].
Defined.

(** ** create: the record built and returned *)

(** C5. [create_user] builds a record with the given name and email and
    [is_active = True], puts it at the end of the directory, and returns
    that very record. *)
Theorem create_user_builds_and_appends (user_data : UserCreate.t) (s : db) :
  exists u,
    create_user user_data s = (Ok u, s ++ [u]) /\
    User.name u = UserCreate.name user_data /\
    User.email u = UserCreate.email user_data /\
    User.is_active u = true /\
    (forall d, last (snd (create_user user_data s)) d = u) /\
    nth_error (snd (create_user user_data s)) (List.length s) = Some u.
Proof.
  rewrite create_user_eq. cbv zeta. eexists.
  split; [reflexivity|]. simpl.
  repeat split.
  - intros d. apply last_last.
  - rewrite nth_error_app2 by lia. now rewrite Nat.sub_diag.
Qed.

(** ** Which operations change the directory *)

Lemma handle_state (r : request) (s : db) :
  snd (handle r s) =
  match r with
  | POST_users user_data =>
      s ++ [User.mk (max_default (map User.id s) 0 + 1)
                    (UserCreate.name user_data) (UserCreate.email user_data) true]
  | _ => s
  end.
Proof.
  destruct r as [| |user_id|user_data]; try reflexivity.
  unfold handle, bind. rewrite get_user_eq.
  now destruct (find_loop user_id s).
Qed.

(** C6. Of all the functions of main.py only [create_user] changes the
    directory: [root], [get_users], [get_user], [find_user_by_id] and
    [calculate_user_score] leave it as it was.  One [create_user] call makes
    the directory exactly one record longer, and every record held before
    is still at its position, unchanged. *)
Theorem create_is_the_only_mutation (s : db) :
  snd (root s) = s /\
  snd (get_users s) = s /\
  (forall user_id, snd (get_user user_id s) = s) /\
  (forall user_id, snd (find_user_by_id user_id s) = s) /\
  (forall user, snd (calculate_user_score user s) = s) /\
  (forall user_data,
     let s' := snd (create_user user_data s) in
     s' <> s /\
     List.length s' = S (List.length s) /\
     firstn (List.length s) s' = s /\
     (forall i u, nth_error s i = Some u -> nth_error s' i = Some u)).
Proof.
  repeat split; try reflexivity.
  - intros user_id. rewrite get_user_eq. now destruct (find_loop user_id s).
  - rewrite create_user_eq. simpl. intros E.
    apply (f_equal (@List.length _)) in E. rewrite length_app in E. simpl in E. lia.
  - rewrite create_user_eq. simpl. rewrite length_app. simpl. lia.
  - rewrite create_user_eq. simpl.
    rewrite firstn_app, Nat.sub_diag, firstn_all. simpl. apply app_nil_r.
  - intros i u Hi. rewrite create_user_eq. simpl.
    rewrite nth_error_app1; [assumption|].
    apply nth_error_Some. congruence.
Qed.

(** Witness for C6: after one create on the seed state the record at
    position 0 is still John's. *)
Lemma create_is_the_only_mutation_witness :
  nth_error (snd (create_user (UserCreate.mk "Ann" "ann@example.com") users_db)) 0
  = Some (User.mk 1 "John Doe" "john@example.com" true).
Proof.
  apply (proj2 (proj2 (proj2 (proj2 (proj2 (create_is_the_only_mutation users_db)))))
           (UserCreate.mk "Ann" "ann@example.com")).
  reflexivity.
Defined.

(** C9. The read operations do not touch the directory: after [get_users]
    and after [get_user], found or not, the sequence of records is the one
    from before the call, and so it is when the calls come in through the
    router. *)
Theorem reads_leave_directory_unchanged (s : db) (user_id : Z) :
  snd (get_users s) = s /\
  snd (get_user user_id s) = s /\
  snd (find_user_by_id user_id s) = s /\
  snd (handle GET_users s) = s /\
  snd (handle (GET_user user_id) s) = s /\
  get_user user_id s = (fst (get_user user_id s), s).
Proof.
  repeat split; try reflexivity; try apply (handle_state (GET_user user_id));
    rewrite get_user_eq; now destruct (find_loop user_id s).
Qed.

Example get_user_404_keeps_seed :
  get_user 99 users_db = (Raise (HTTPException 404 "User not found"), users_db).
Proof. reflexivity. Qed.

(** ** The score does not depend on the directory *)

(** C8. [calculate_user_score] is a function of the record alone: from any
    two directory states it gives the same outcome, a second call right
    after the first gives the same outcome again, and the directory is the
    same after the calls as before. *)
Theorem calculate_user_score_pure (user : User.t) (s1 s2 : db) :
  fst (calculate_user_score user s1) = fst (calculate_user_score user s2) /\
  snd (calculate_user_score user s1) = s1 /\
  (let '(first, s') := calculate_user_score user s1 in
   let '(second, s'') := calculate_user_score user s' in
   first = second /\ s'' = s1).
Proof. repeat split. Qed.

(** ** Consecutive ids *)

Section Consecutive.

Lemma consecutive_from_S (a : Z) (n : nat) :
  consecutive_from a (S n) = a :: consecutive_from (a + 1) n.
Proof.
  unfold consecutive_from. simpl. f_equal; [lia|].
  rewrite <- seq_shift, map_map. apply map_ext. intros k. lia.
Qed.

Lemma consecutive_from_in (n : nat) :
  forall a x, In x (consecutive_from a n) <-> a <= x < a + Z.of_nat n.
Proof.
  induction n as [|n IH]; intros a x.
  - simpl. lia.
  - rewrite consecutive_from_S. simpl. rewrite IH. lia.
Qed.

Lemma consecutive_from_NoDup (n : nat) : forall a, NoDup (consecutive_from a n).
Proof.
  induction n as [|n IH]; intros a.
  - constructor.
  - rewrite consecutive_from_S. constructor; [|apply IH].
    rewrite consecutive_from_in. lia.
Qed.

Lemma consecutive_from_app (n m : nat) :
  forall a, consecutive_from a (n + m)
            = consecutive_from a n ++ consecutive_from (a + Z.of_nat n) m.
Proof.
  induction n as [|n IH]; intros a.
  - simpl. f_equal. lia.
  - change (S n + m)%nat with (S (n + m)).
    rewrite !consecutive_from_S, IH.
    replace (a + 1 + Z.of_nat n) with (a + Z.of_nat (S n)) by lia.
    reflexivity.
Qed.

Lemma consecutive_from_max (a : Z) (n : nat) :
  is_max (a + Z.of_nat n) (consecutive_from a (S n)).
Proof.
  split.
  - apply consecutive_from_in. lia.
  - intros x Hx. apply consecutive_from_in in Hx. lia.
Qed.

End Consecutive.

(** ** The directory reached from the seed state *)

Lemma dense_seed : dense users_db.
Proof. reflexivity. Qed.

Lemma dense_max (s : db) :
  dense s -> max_default (map User.id s) 0 = Z.of_nat (List.length s).
Proof.
  intros D. destruct s as [|v s]; [reflexivity|].
  apply (is_max_unique (map User.id (v :: s))).
  - apply max_default_is_max.
  - rewrite D. simpl List.length.
    replace (Z.of_nat (S (List.length s))) with (1 + Z.of_nat (List.length s)) by lia.
    apply consecutive_from_max.
Qed.

Lemma dense_handle (r : request) (s : db) : dense s -> dense (snd (handle r s)).
Proof.
  intros D. rewrite handle_state. destruct r; try assumption.
  unfold dense. rewrite map_app, length_app, consecutive_from_app, <- D.
  cbn [map User.id List.length]. rewrite (dense_max s D).
  unfold consecutive_from. cbn [seq map].
  now replace (1 + Z.of_nat (List.length s) + Z.of_nat 0)
    with (Z.of_nat (List.length s) + 1) by lia.
Qed.

Lemma dense_NoDup (s : db) : dense s -> NoDup (map User.id s).
Proof. intros D. rewrite D. apply consecutive_from_NoDup. Qed.

Lemma serve_cons (r : request) (rs : list request) (s : db) :
  serve (r :: rs) s =
  ((r, fst (handle r s)) :: fst (serve rs (snd (handle r s))),
   snd (serve rs (snd (handle r s)))).
Proof.
  simpl. destruct (handle r s) as [a s1]. simpl.
  now destruct (serve rs s1).
Qed.

Lemma dense_serve (rs : list request) : forall s, dense s -> dense (snd (serve rs s)).
Proof.
  induction rs as [|r rs IH]; intros s D; [assumption|].
  rewrite serve_cons. simpl. apply IH. now apply dense_handle.
Qed.

Lemma handle_created (r : request) (s : db) (tr : list (request * result response)) :
  snd (handle r s) ++ created tr = s ++ created ((r, fst (handle r s)) :: tr).
Proof.
  destruct r as [| |user_id|user_data]; try reflexivity.
  - unfold handle, bind. rewrite get_user_eq.
    now destruct (find_loop user_id s).
  - simpl. now rewrite <- app_assoc.
Qed.

Lemma serve_state (rs : list request) :
  forall s, snd (serve rs s) = s ++ created (fst (serve rs s)).
Proof.
  induction rs as [|r rs IH]; intros s.
  - simpl. now rewrite app_nil_r.
  - rewrite serve_cons. simpl fst. simpl snd.
    rewrite IH. apply handle_created.
Qed.

Lemma create_all_serve (ds : list UserCreate.t) :
  forall s, create_all ds s
            = (Ok (created (fst (serve (map POST_users ds) s))),
               snd (serve (map POST_users ds) s)).
Proof.
  induction ds as [|d ds IH]; intros s; [reflexivity|].
  simpl map. rewrite serve_cons.
  simpl create_all. unfold bind at 1. rewrite create_user_eq. cbv zeta.
  unfold bind at 1. rewrite IH. reflexivity.
Qed.

Lemma created_length_posts (ds : list UserCreate.t) :
  forall s, List.length (created (fst (serve (map POST_users ds) s))) = List.length ds.
Proof.
  induction ds as [|d ds IH]; intros s; [reflexivity|].
  simpl map. rewrite serve_cons. simpl. now rewrite IH.
Qed.

Lemma created_all_posts (rs : list request) :
  forall s, List.length (created (fst (serve rs s))) = List.length (filter is_post rs).
Proof.
  induction rs as [|r rs IH]; intros s; [reflexivity|].
  rewrite serve_cons.
  destruct r as [| |user_id|user_data]; simpl; now rewrite IH.
Qed.

Lemma created_ids (rs : list request) (s : db) :
  dense s ->
  map User.id (created (fst (serve rs s)))
  = consecutive_from (1 + Z.of_nat (List.length s))
                     (List.length (created (fst (serve rs s)))).
Proof.
  intros D. pose proof (dense_serve rs s D) as D'.
  unfold dense in D'. rewrite serve_state in D'.
  rewrite map_app, length_app, consecutive_from_app, <- D in D'.
  now apply app_inv_head in D'.
Qed.

(** ** Sequences of operations from the seed state *)

(** C4. From the seed state, after any sequence of requests the ids in the
    directory are pairwise distinct, and the records that the create calls
    returned carry, in order, the ids 3, 4, 5, ...: each one more than the
    one before.  For a sequence of create calls alone: every call returns a
    record, and the ids returned are 3, 4, ..., one per call. *)
Theorem ids_from_seed_step_by_one (rs : list request) (ds : list UserCreate.t) :
  NoDup (map User.id (snd (serve rs users_db))) /\
  map User.id (created (fst (serve rs users_db)))
  = consecutive_from 3 (List.length (filter is_post rs)) /\
  exists us,
    create_all ds users_db = (Ok us, users_db ++ us) /\
    List.length us = List.length ds /\
    map User.id us = consecutive_from 3 (List.length ds) /\
    NoDup (map User.id (users_db ++ us)).
Proof.
  split; [|split].
  - apply dense_NoDup, dense_serve, dense_seed.
  - rewrite <- created_all_posts with (s := users_db).
    apply (created_ids rs users_db dense_seed).
  - exists (created (fst (serve (map POST_users ds) users_db))).
    rewrite create_all_serve, serve_state.
    split; [reflexivity|].
    split; [apply created_length_posts|].
    split.
    + rewrite <- (created_length_posts ds users_db).
      apply (created_ids _ users_db dense_seed).
    + rewrite <- serve_state. apply dense_NoDup, dense_serve, dense_seed.
Qed.

Example three_creates_from_seed :
  map User.id
      (snd (create_all [UserCreate.mk "a" "a@x"; UserCreate.mk "b" "b";
                        UserCreate.mk "a" "a@x"] users_db))
  = [1; 2; 3; 4; 5].
Proof. reflexivity. Qed.

(** C7. From the seed state, after any sequence of requests [get_users]
    returns the whole directory: the two seed records first, then every
    record that a create call returned, in the order of the calls; no
    create call is missing from it. *)
Theorem get_users_lists_seed_then_created (rs : list request) :
  let tr := fst (serve rs users_db) in
  let s := snd (serve rs users_db) in
  get_users s = (Ok (users_db ++ created tr), s) /\
  handle GET_users s = (Ok (Users (users_db ++ created tr)), s) /\
  List.length (created tr) = List.length (filter is_post rs) /\
  map User.id (firstn 2 s) = [1; 2].
Proof.
  cbv zeta. rewrite serve_state.
  repeat split.
  apply created_all_posts.
Qed.

(** ** binary64 conversion of an int *)

Section Float.

Lemma digits2_pos_size (p : positive) : digits2_pos p = Pos.size p.
Proof. induction p; simpl; congruence. Qed.

Lemma digits2_log2 (p : positive) : Zpos (digits2_pos p) = Z.log2 (Zpos p) + 1.
Proof. destruct p; simpl; rewrite ?digits2_pos_size; lia. Qed.

Lemma fexp_digits (d : Z) : 1 <= d -> fexp prec emax d = d - 53.
Proof. unfold fexp, emin, prec, emax. lia. Qed.

Lemma iter_xO_value (m k : positive) :
  Zpos (Pos.iter xO m k) = Zpos m * 2 ^ Zpos k.
Proof.
  apply Pos.iter_ind with (P := fun k x => Zpos x = Zpos m * 2 ^ Zpos k).
  - change (2 ^ 1) with 2. lia.
  - intros p a E. rewrite Pos2Z.inj_succ, Z.pow_succ_r by lia.
    rewrite Pos2Z.inj_xO, E. ring.
Qed.

Lemma iter_xO_digits (m k : positive) :
  Zpos (digits2_pos (Pos.iter xO m k)) = Zpos (digits2_pos m) + Zpos k.
Proof.
  apply Pos.iter_ind
    with (P := fun k x => Zpos (digits2_pos x) = Zpos (digits2_pos m) + Zpos k).
  - simpl. lia.
  - intros p a E. simpl digits2_pos. lia.
Qed.

(** A mantissa that already has its final exponent is left alone. *)
Lemma binary_round_aux_canonical (m : positive) (e : Z) :
  fexp prec emax (Zpos (digits2_pos m) + e) = e ->
  e <= 971 ->
  binary_round_aux prec emax false (Zpos m) e loc_Exact = S754_finite false m e.
Proof.
  intros C B. unfold binary_round_aux, shr_fexp. simpl Zdigits2.
  rewrite C, Z.sub_diag.
  cbn [shr shr_record_of_loc loc_of_shr_record shr_m round_nearest_even Zdigits2].
  rewrite C, Z.sub_diag.
  cbn [shr shr_record_of_loc shr_m].
  unfold prec, emax. destruct (Z.leb_spec e (1024 - 53)); [reflexivity | lia].
Qed.

(** Below 2^53 the conversion is exact: the int is shifted left until it
    has 53 digits. *)
Lemma binary_normalize_small (p : positive) :
  Z.log2 (Zpos p) < 53 ->
  exists m,
    binary_normalize prec emax (Zpos p) 0 false
    = S754_finite false m (Z.log2 (Zpos p) - 52) /\
    Zpos m = Zpos p * 2 ^ (52 - Z.log2 (Zpos p)).
Proof.
  intros L. pose proof (Z.log2_nonneg (Zpos p)) as L0.
  unfold binary_normalize, binary_round, shl_align.
  rewrite Z.add_0_r, fexp_digits, Z.sub_0_r by (rewrite digits2_log2; lia).
  rewrite digits2_log2.
  replace (Z.log2 (Zpos p) + 1 - 53) with (Z.log2 (Zpos p) - 52) by lia.
  destruct (Z.log2 (Zpos p) - 52) as [|k|k] eqn:K; try lia.
  - exists p. rewrite binary_round_aux_canonical.
    + split; [reflexivity|].
      replace (52 - Z.log2 (Zpos p)) with 0 by lia. simpl. lia.
    + rewrite Z.add_0_r, fexp_digits, digits2_log2; rewrite ?digits2_log2; lia.
    + lia.
  - exists (Pos.iter xO p k). rewrite binary_round_aux_canonical.
    + split; [reflexivity|]. rewrite iter_xO_value. f_equal. f_equal. lia.
    + rewrite iter_xO_digits, digits2_log2, fexp_digits; lia.
    + lia.
Qed.

Lemma shr_1_m (r : shr_record) : 0 <= shr_m r -> shr_m (shr_1 r) = shr_m r / 2.
Proof.
  destruct r as [m b c]. simpl. intros Hm. rewrite <- Z.div2_div.
  destruct m as [|[q|q|]|q]; try reflexivity. lia.
Qed.

Lemma pow2_pos (e : Z) : 0 <= e -> 0 < 2 ^ e.
Proof. intros. apply Z.pow_pos_nonneg; lia. Qed.

Lemma shr_1_r (r : shr_record) :
  0 <= shr_m r -> shr_r (shr_1 r) = Z.odd (shr_m r).
Proof.
  destruct r as [m b c]. simpl. intros Hm.
  destruct m as [|[q|q|]|q]; try reflexivity. lia.
Qed.

Lemma shr_1_s (r : shr_record) : shr_s (shr_1 r) = shr_r r || shr_s r.
Proof. destruct r as [m b c]. simpl. now destruct m as [|[q|q|]|[q|q|]]. Qed.

Lemma shr_tracks_start (p : Z) :
  shr_tracks p 0 {| shr_m := p; shr_r := false; shr_s := false |}.
Proof.
  unfold shr_tracks. simpl. rewrite Z.div_1_r, Z.mod_1_r. repeat split.
Qed.

Lemma shr_tracks_step (p j : Z) (r : shr_record) :
  0 <= p -> 0 <= j -> shr_tracks p j r -> shr_tracks p (j + 1) (shr_1 r).
Proof.
  intros Hp Hj (M & R & S).
  pose proof (pow2_pos j Hj) as P.
  assert (Hm : 0 <= shr_m r) by (rewrite M; apply Z.div_pos; lia).
  unfold shr_tracks. rewrite shr_1_m, shr_1_r, shr_1_s, M, R, S by assumption.
  replace (j + 1 - 1) with j by lia.
  split; [|split].
  - rewrite Z.div_div, Z.pow_add_r by lia. reflexivity.
  - now rewrite Z.testbit_odd, Z.shiftr_div_pow2.
  - rewrite (Z.max_r 0 j) by lia.
    destruct (Z.eq_dec j 0) as [J0|J0].
    + subst j. simpl. now rewrite Z.mod_1_r.
    + rewrite (Z.max_r 0 (j - 1)) by lia.
      pose proof (pow2_pos (j - 1) ltac:(lia)) as P1.
      pose proof (Z.testbit_spec' p (j - 1) ltac:(lia)) as B.
      pose proof (Z.mod_pos_bound p (2 ^ (j - 1)) P1) as Lo.
      pose proof (Z.mod_pos_bound (p / 2 ^ (j - 1)) 2 ltac:(lia)) as Bb.
      assert (E : 2 ^ j = 2 ^ (j - 1) * 2).
      { rewrite Z.mul_comm, <- Z.pow_succ_r by lia. f_equal. lia. }
      rewrite E, Z.rem_mul_r by lia.
      rewrite <- B.
      destruct (Z.testbit p (j - 1)); simpl Z.b2z; cbn [orb].
      * symmetry. apply negb_true_iff, Z.eqb_neq. lia.
      * now rewrite Z.mul_0_r, Z.add_0_r.
Qed.

Lemma shr_tracks_iter (p : Z) (k : positive) :
  0 <= p ->
  forall j r, 0 <= j -> shr_tracks p j r ->
              shr_tracks p (j + Zpos k) (iter_pos shr_1 k r).
Proof.
  intros Hp. induction k as [k IH|k IH|]; intros j r Hj T; simpl iter_pos.
  - replace (j + Zpos k~1) with (j + 1 + Zpos k + Zpos k) by lia.
    apply IH; [lia|]. apply IH; [lia|]. now apply shr_tracks_step.
  - replace (j + Zpos k~0) with (j + Zpos k + Zpos k) by lia.
    apply IH; [lia|]. now apply IH.
  - now apply shr_tracks_step.
Qed.

(** Rounding the shifted record to nearest, ties to even, errs by at most
    half of the weight of the last digit kept. *)
Lemma round_nearest_even_error (p : Z) (k : positive) (r : shr_record) :
  0 <= p -> shr_tracks p (Zpos k) r ->
  2 * Z.abs (round_nearest_even (shr_m r) (loc_of_shr_record r) * 2 ^ Zpos k - p)
  <= 2 ^ Zpos k.
Proof.
  intros Hp (M & R & S).
  rewrite Z.max_r in S by lia.
  pose proof (pow2_pos (Zpos k - 1) ltac:(lia)) as P1.
  pose proof (Z.testbit_spec' p (Zpos k - 1) ltac:(lia)) as B.
  pose proof (Z.mod_pos_bound p (2 ^ (Zpos k - 1)) P1) as Lo.
  assert (E : 2 ^ Zpos k = 2 ^ (Zpos k - 1) * 2).
  { rewrite Z.mul_comm, <- Z.pow_succ_r by lia. f_equal. lia. }
  pose proof (Z.div_mod p (2 ^ Zpos k) ltac:(lia)) as D.
  assert (Rm : p mod 2 ^ Zpos k
               = p mod 2 ^ (Zpos k - 1)
                 + 2 ^ (Zpos k - 1) * ((p / 2 ^ (Zpos k - 1)) mod 2))
    by (rewrite E; apply Z.rem_mul_r; lia).
  rewrite Rm, <- B, <- R in D. clear Rm B. rewrite M.
  set (q := p / 2 ^ Zpos k) in *.
  set (lo := p mod 2 ^ (Zpos k - 1)) in *.
  rewrite E in *. set (h := 2 ^ (Zpos k - 1)) in *.
  destruct r as [m b c]. cbn [shr_m shr_r shr_s loc_of_shr_record] in *.
  subst c. destruct b; simpl Z.b2z in D;
    destruct (Z.eqb_spec lo 0) as [L0|L0]; cbn [negb round_nearest_even].
  - destruct (Z.even q); nia.
  - nia.
  - nia.
  - nia.
Qed.

Lemma round_nearest_even_cases (q : Z) (l : location) :
  round_nearest_even q l = q \/ round_nearest_even q l = q + 1.
Proof.
  destruct l as [|[| |]]; simpl; auto. destruct (Z.even q); auto.
Qed.

(** A 53-digit mantissa keeps its exponent; 2^53, which rounding up can
    produce, is halved once. *)
Lemma shr_fexp_53 (q : positive) (e : Z) :
  Z.log2 (Zpos q) = 52 -> 0 <= e ->
  shr_fexp prec emax (Zpos q) e loc_Exact
  = ({| shr_m := Zpos q; shr_r := false; shr_s := false |}, e).
Proof.
  intros L He. unfold shr_fexp. cbn [Zdigits2].
  rewrite fexp_digits, digits2_log2, L by (rewrite digits2_log2; lia).
  now replace (52 + 1 + e - 53 - e) with 0 by lia.
Qed.

Lemma shr_fexp_54 (e : Z) :
  0 <= e ->
  shr_fexp prec emax (2 ^ 53) e loc_Exact
  = ({| shr_m := 2 ^ 52; shr_r := false; shr_s := false |}, e + 1).
Proof.
  intros He. unfold shr_fexp.
  change (Zdigits2 (2 ^ 53)) with 54.
  rewrite fexp_digits by lia.
  now replace (54 + e - 53 - e) with 1 by lia.
Qed.

(** From 2^53 on, the low [k] digits are rounded away: the result is
    finite and off by at most half of the weight of its last digit. *)
Lemma binary_normalize_large (p : positive) (k : positive) :
  Z.log2 (Zpos p) = 52 + Zpos k -> Zpos k <= 970 ->
  exists m e,
    binary_normalize prec emax (Zpos p) 0 false = S754_finite false m e /\
    Zpos k <= e <= Zpos k + 1 /\
    2 * Z.abs (Zpos m * 2 ^ e - Zpos p) <= 2 ^ Zpos k.
Proof.
  intros L K.
  pose proof (pow2_pos (Zpos k) ltac:(lia)) as P.
  assert (B : 2 ^ 52 <= Zpos p / 2 ^ Zpos k < 2 ^ 53).
  { destruct (Z.log2_spec (Zpos p) ltac:(lia)) as [Lo Hi].
    rewrite L in Lo, Hi.
    rewrite Z.pow_add_r in Lo by lia.
    replace (Z.succ (52 + Zpos k)) with (53 + Zpos k) in Hi by lia.
    rewrite Z.pow_add_r in Hi by lia.
    split.
    - apply Z.div_le_lower_bound; lia.
    - apply Z.div_lt_upper_bound; lia. }
  unfold binary_normalize, binary_round, shl_align.
  rewrite Z.add_0_r, fexp_digits, Z.sub_0_r by (rewrite digits2_log2; lia).
  rewrite digits2_log2, L.
  replace (52 + Zpos k + 1 - 53) with (Zpos k) by lia.
  unfold binary_round_aux.
  assert (E1 : shr_fexp prec emax (Zpos p) 0 loc_Exact
               = (iter_pos shr_1 k {| shr_m := Zpos p; shr_r := false; shr_s := false |},
                  Zpos k)).
  { unfold shr_fexp. cbn [Zdigits2].
    rewrite Z.add_0_r, fexp_digits, Z.sub_0_r by (rewrite digits2_log2; lia).
    rewrite digits2_log2, L.
    now replace (52 + Zpos k + 1 - 53) with (Zpos k) by lia. }
  rewrite E1. clear E1.
  set (r1 := iter_pos shr_1 k _).
  assert (T1 : shr_tracks (Zpos p) (Zpos k) r1).
  { change (Zpos k) with (0 + Zpos k).
    apply shr_tracks_iter; [lia | lia | apply shr_tracks_start]. }
  pose proof (round_nearest_even_error (Zpos p) k r1 ltac:(lia) T1) as Err.
  assert (Hq : shr_m r1 = Zpos p / 2 ^ Zpos k) by apply T1.
  set (q' := round_nearest_even (shr_m r1) (loc_of_shr_record r1)) in *.
  assert (R : q' = Zpos p / 2 ^ Zpos k \/ q' = Zpos p / 2 ^ Zpos k + 1)
    by (rewrite <- Hq; apply round_nearest_even_cases).
  clearbody q'. clear Hq T1 r1.
  destruct (Z.eq_dec q' (2 ^ 53)) as [T|T].
  - rewrite T, shr_fexp_54 by lia. cbn [shr_m].
    change (2 ^ 52) with 4503599627370496.
    unfold prec, emax. destruct (Z.leb_spec (Zpos k + 1) (1024 - 53)); [|lia].
    exists 4503599627370496%positive, (Zpos k + 1).
    split; [reflexivity|]. split; [lia|].
    replace (4503599627370496 * 2 ^ (Zpos k + 1)) with (q' * 2 ^ Zpos k);
      [assumption|].
    rewrite T, Z.pow_add_r by lia.
    change (2 ^ 1) with 2. change (2 ^ 53) with (4503599627370496 * 2). ring.
  - destruct q' as [|q|q]; try lia.
    rewrite shr_fexp_53; [|apply Z.log2_unique; change (Z.succ 52) with 53; lia|lia].
    cbn [shr_m].
    unfold prec, emax. destruct (Z.leb_spec (Zpos k) (1024 - 53)); [|lia].
    exists q, (Zpos k).
    split; [reflexivity|]. split; [lia|assumption].
Qed.

Lemma float_to_Z_shifted (p m : positive) (j : Z) :
  0 <= j -> Zpos m = Zpos p * 2 ^ j ->
  float_to_Z (S754_finite false m (- j)) = Some (Zpos p).
Proof.
  intros Hj E. pose proof (pow2_pos j Hj) as P. unfold float_to_Z.
  destruct (Z.leb_spec 0 (- j)) as [H|H].
  - replace j with 0 in * by lia. simpl in *. f_equal. lia.
  - rewrite Z.opp_involutive, E, Z.mod_mul, Z.div_mul by lia. reflexivity.
Qed.

(** [float] of a positive int below 2^1023: a positive finite number that
    stands for an integer, the int itself below 2^53 and otherwise the
    nearest multiple of the weight 2^(log2 z - 52) of the last of its 53
    digits. *)
Lemma float_pos (z : Z) :
  0 < z -> Z.log2 z <= 1022 ->
  exists m e v,
    float z = Ok (S754_finite false m e) /\
    float_to_Z (S754_finite false m e) = Some v /\
    0 < v /\
    (z < 2 ^ 53 -> v = z) /\
    2 * Z.abs (v - z) <= 2 ^ (Z.log2 z - 52).
Proof.
  intros Hz L. destruct z as [|p|p]; try lia.
  destruct (Z_lt_le_dec (Z.log2 (Zpos p)) 53) as [S|S].
  - destruct (binary_normalize_small p S) as (m & E & V).
    exists m, (Z.log2 (Zpos p) - 52), (Zpos p). unfold float. rewrite E.
    pose proof (Z.log2_nonneg (Zpos p)).
    split; [reflexivity|]. split; [|split; [lia|split; [reflexivity|]]].
    + replace (Z.log2 (Zpos p) - 52) with (- (52 - Z.log2 (Zpos p))) by lia.
      apply float_to_Z_shifted; [lia | assumption].
    + rewrite Z.sub_diag. simpl Z.abs. rewrite Z.mul_0_r. apply Z.pow_nonneg. lia.
  - destruct (Z.log2 (Zpos p) - 52) as [|k|k] eqn:K; try lia.
    destruct (binary_normalize_large p k ltac:(lia) ltac:(lia))
      as (m & e & E & He & V).
    exists m, e, (Zpos m * 2 ^ e). unfold float. rewrite E.
    pose proof (pow2_pos e ltac:(lia)).
    pose proof (pow2_pos (Zpos k) ltac:(lia)) as P.
    split; [reflexivity|]. split; [|split; [lia|split]].
    + unfold float_to_Z. destruct (Z.leb_spec 0 e); [reflexivity | lia].
    + intros Lt. apply Z.log2_lt_pow2 in Lt; lia.
    + assumption.
Qed.

Example float_zero : float 0 = Ok (S754_zero false).
Proof. reflexivity. Qed.

End Float.

(** ** The [in] test against one character *)

Lemma str_in_at (s : string) : str_in "@" s = true <-> contains_at s.
Proof.
  unfold contains_at.
  induction s as [|c s IH]; cbn [str_in prefix list_ascii_of_string In].
  - split; [discriminate | intros []].
  - destruct (ascii_dec "@" c) as [E|N].
    + subst c. split; [auto|]. intros _. now destruct s.
    + rewrite IH. split; [auto | intros [H|H]; [congruence | assumption]].
Qed.

Lemma email_bonus_eq (s : string) :
  (if str_in "@" s then 5 else 0)
  = (if in_dec ascii_dec "@"%char (list_ascii_of_string s) then 5 else 0).
Proof.
  pose proof (str_in_at s) as H. unfold contains_at in H.
  destruct (str_in "@" s), (in_dec ascii_dec "@"%char (list_ascii_of_string s));
    try reflexivity.
  - exfalso. apply n, H. reflexivity.
  - apply H in i. discriminate.
Qed.

(** ** The score *)

Lemma calculate_user_score_eq (user : User.t) (s : db) :
  calculate_user_score user s = (float (score_formula user), s).
Proof.
  unfold calculate_user_score, lift, score_formula, len.
  now rewrite email_bonus_eq.
Qed.

Lemma score_formula_range (user : User.t) :
  valid_user user -> 0 <= score_formula user < 2 ^ 67.
Proof.
  unfold valid_user, len, PY_SSIZE_T_MAX, score_formula.
  change (2 ^ 63) with 9223372036854775808.
  change (2 ^ 67) with 147573952589676412928.
  intros V.
  destruct (in_dec ascii_dec "@"%char (list_ascii_of_string (User.email user)));
    destruct (User.is_active user); lia.
Qed.

Lemma score_formula_zero (user : User.t) :
  score_formula user = 0 <->
  User.name user = "" /\ ~ contains_at (User.email user) /\ User.is_active user = false.
Proof.
  unfold score_formula, contains_at.
  destruct (in_dec ascii_dec "@"%char (list_ascii_of_string (User.email user)))
    as [I|NI];
    destruct (User.is_active user); destruct (User.name user) as [|c nm];
    cbn [String.length]; split; try lia; try (intros (N & C & A));
    try discriminate; try contradiction.
  intros _. repeat split; auto.
Qed.

(** C3. For every user whose name has a length a str can have, the score is
    returned, never an exception, and it is the float conversion of
    len(name) * 10 + (5 if the email has an "@") + (20 if active): the float
    stands for exactly that integer below 2^53, and above (names of some
    9 * 10^14 characters and more) for the nearest number with 53 digits. *)
Theorem calculate_user_score_formula (user : User.t) (s : db) :
  valid_user user ->
  exists f v,
    calculate_user_score user s = (Ok f, s) /\
    float (score_formula user) = Ok f /\
    float_to_Z f = Some v /\
    (score_formula user < 2 ^ 53 -> v = score_formula user) /\
    2 * Z.abs (v - score_formula user) <= 2 ^ (Z.log2 (score_formula user) - 52).
Proof.
  intros V. rewrite calculate_user_score_eq.
  destruct (score_formula_range user V) as [Lo Hi].
  destruct (Z.eq_dec (score_formula user) 0) as [Z0|NZ].
  - rewrite Z0. exists (S754_zero false), 0. now repeat split.
  - assert (L : Z.log2 (score_formula user) <= 1022).
    { apply Z.log2_lt_pow2 in Hi; lia. }
    destruct (float_pos (score_formula user) ltac:(lia) L)
      as (m & e & v & F & T & _ & X & U).
    exists (S754_finite false m e), v. rewrite F. now repeat split.
Qed.

(** Witness for C3, and its scenario: John Doe scores 105.0. *)
Lemma calculate_user_score_formula_witness :
  valid_user john /\
  exists f v,
    calculate_user_score john users_db = (Ok f, users_db) /\
    float (score_formula john) = Ok f /\
    float_to_Z f = Some v /\
    (score_formula john < 2 ^ 53 -> v = score_formula john) /\
    2 * Z.abs (v - score_formula john) <= 2 ^ (Z.log2 (score_formula john) - 52).
Proof.
  split.
  - unfold valid_user, len, PY_SSIZE_T_MAX. simpl. lia.
  - apply (calculate_user_score_formula john users_db).
    unfold valid_user, len, PY_SSIZE_T_MAX. simpl. lia.
Defined.

Example john_score :
  score_formula john = 8 * 10 + 5 + 20 /\
  fst (calculate_user_score john users_db) = float 105 /\
  fst (calculate_user_score john users_db)
  = Ok (S754_finite false 7388718138654720 (-46)) /\
  float_to_Z (S754_finite false 7388718138654720 (-46)) = Some 105.
Proof. repeat split. Qed.

(** C10. For every user whose name has a length a str can have, the score
    is the float conversion of a natural number, it stands for an integer
    that is not negative, it compares as at least 0.0, and it is 0.0 exactly
    when the name is empty, the email has no "@" and the user is not
    active. *)
Theorem calculate_user_score_nonnegative (user : User.t) (s : db) :
  valid_user user ->
  exists f v,
    fst (calculate_user_score user s) = Ok f /\
    (exists n : nat, float (Z.of_nat n) = Ok f) /\
    float_to_Z f = Some v /\
    0 <= v /\
    SFleb (S754_zero false) f = true /\
    (f = S754_zero false <->
     User.name user = "" /\ ~ contains_at (User.email user) /\
     User.is_active user = false) /\
    (SFeqb f (S754_zero false) = true <-> f = S754_zero false) /\
    (v = 0 <-> f = S754_zero false).
Proof.
  intros V. rewrite calculate_user_score_eq. cbn [fst].
  destruct (score_formula_range user V) as [Lo Hi].
  pose proof (score_formula_zero user) as Zr.
  destruct (Z.eq_dec (score_formula user) 0) as [Z0|NZ].
  - exists (S754_zero false), 0. rewrite Z0.
    split; [reflexivity|]. split; [now exists 0%nat|].
    split; [reflexivity|]. split; [lia|]. split; [reflexivity|].
    split; [|now split]. split; intros _; [now apply Zr | reflexivity].
  - assert (L : Z.log2 (score_formula user) <= 1022).
    { apply Z.log2_lt_pow2 in Hi; lia. }
    destruct (float_pos (score_formula user) ltac:(lia) L)
      as (m & e & v & F & T & P & _ & _).
    exists (S754_finite false m e), v.
    split; [assumption|]. split.
    { exists (Z.to_nat (score_formula user)). now rewrite Z2Nat.id by lia. }
    split; [assumption|]. split; [lia|]. split; [reflexivity|].
    split; [|split]; split; try discriminate; try lia.
    intros C. apply Zr in C. contradiction.
Qed.

(** Witness for C10: an inactive user without name and without "@" scores
    0.0, John scores more. *)
Lemma calculate_user_score_nonnegative_witness :
  (exists f v,
     fst (calculate_user_score (User.mk 7 "" "nobody" false) users_db) = Ok f /\
     (exists n : nat, float (Z.of_nat n) = Ok f) /\
     float_to_Z f = Some v /\
     0 <= v /\
     SFleb (S754_zero false) f = true /\
     (f = S754_zero false <->
      "" = "" /\ ~ contains_at "nobody" /\ false = false) /\
     (SFeqb f (S754_zero false) = true <-> f = S754_zero false) /\
     (v = 0 <-> f = S754_zero false)) /\
  fst (calculate_user_score (User.mk 7 "" "nobody" false) users_db)
  = Ok (S754_zero false).
Proof.
  split; [|reflexivity].
  apply (calculate_user_score_nonnegative (User.mk 7 "" "nobody" false) users_db).
  unfold valid_user, len, PY_SSIZE_T_MAX. simpl. lia.
Defined.

(** ** Lookup in a directory that grows *)

Lemma find_loop_app (user_id : Z) (s t : db) :
  find_loop user_id (s ++ t) =
  match find_loop user_id s with
  | Some u => Some u
  | None => find_loop user_id t
  end.
Proof.
  induction s as [|v s IH]; simpl; [reflexivity|].
  now destruct (User.id v =? user_id).
Qed.

Lemma max_default_upper (l : list Z) (d x : Z) : In x l -> x <= max_default l d.
Proof.
  destruct l as [|y ys]; intros H; [destruct H|].
  now apply (max_default_is_max y ys d).
Qed.

Lemma new_id_above (s : db) (v : User.t) :
  In v s -> User.id v < max_default (map User.id s) 0 + 1.
Proof.
  intros H.
  pose proof (max_default_upper (map User.id s) 0 (User.id v) (in_map _ _ _ H)).
  lia.
Qed.

Lemma new_id_absent (s : db) : ~ has_id (max_default (map User.id s) 0 + 1) s.
Proof. intros (v & Hv & E). pose proof (new_id_above s v Hv). lia. Qed.

Lemma max_default_snoc (l : list Z) (d : Z) :
  max_default (l ++ [max_default l d + 1]) d = max_default l d + 1.
Proof.
  destruct (l ++ [max_default l d + 1]) as [|y ys] eqn:E.
  - now destruct l.
  - apply (is_max_unique (y :: ys)); [apply max_default_is_max|].
    rewrite <- E. split.
    + apply in_or_app. right. now left.
    + intros x Hx. apply in_app_or in Hx. destruct Hx as [Hx|[Hx|[]]]; [|lia].
      pose proof (max_default_upper l d x Hx). lia.
Qed.

(** X1. In any directory, the record that [create_user] has just returned
    is the one [get_user] finds under its id. *)
Theorem get_user_after_create (user_data : UserCreate.t) (s : db) :
  exists u s',
    create_user user_data s = (Ok u, s') /\
    get_user (User.id u) s' = (Ok u, s').
Proof.
  rewrite create_user_eq. cbv zeta. do 2 eexists. split; [reflexivity|].
  rewrite get_user_eq, find_loop_app.
  destruct (find_loop_none (max_default (map User.id s) 0 + 1) s) as [_ N].
  cbn [User.id]. rewrite (N (new_id_absent s)).
  cbn [find_loop User.id]. now rewrite Z.eqb_refl.
Qed.

(** X2. A [create_user] call changes the answer of [get_user] for no id but
    the new one: found records stay the same records, absent ids stay
    absent. *)
Theorem create_keeps_other_lookups (user_data : UserCreate.t) (s : db) (user_id : Z) :
  user_id <> max_default (map User.id s) 0 + 1 ->
  fst (get_user user_id (snd (create_user user_data s)))
  = fst (get_user user_id s).
Proof.
  intros N. rewrite create_user_eq. cbv zeta. cbn [snd].
  rewrite !get_user_eq, find_loop_app.
  destruct (find_loop user_id s); [reflexivity|].
  cbn [find_loop User.id].
  destruct (Z.eqb_spec (max_default (map User.id s) 0 + 1) user_id); [congruence|].
  reflexivity.
Qed.

Lemma create_keeps_other_lookups_witness :
  fst (get_user 99 (snd (create_user (UserCreate.mk "Ann" "ann@example.com") users_db)))
  = fst (get_user 99 users_db).
Proof.
  apply (create_keeps_other_lookups (UserCreate.mk "Ann" "ann@example.com") users_db 99).
  simpl. lia.
Defined.

(** X3. The id that [create_user] assigns is greater than every id in the
    directory, whatever the directory holds, so no record had it before. *)
Theorem create_user_id_is_fresh (user_data : UserCreate.t) (s : db) :
  exists u,
    fst (create_user user_data s) = Ok u /\
    Forall (fun v => User.id v < User.id u) s /\
    ~ has_id (User.id u) s.
Proof.
  rewrite create_user_eq. cbv zeta. eexists. split; [reflexivity|].
  cbn [User.id]. split; [|apply new_id_absent].
  apply Forall_forall. intros v Hv. now apply new_id_above.
Qed.

(** ** Distinct ids, from any directory *)

Lemma handle_keeps_NoDup (r : request) (s : db) :
  NoDup (map User.id s) -> NoDup (map User.id (snd (handle r s))).
Proof.
  intros D. rewrite handle_state. destruct r; try assumption.
  rewrite map_app. cbn [map User.id].
  apply NoDup_rev in D. rewrite <- (rev_involutive (map User.id s ++ _)).
  apply NoDup_rev. rewrite rev_app_distr. cbn [rev app].
  constructor; [|assumption].
  rewrite <- in_rev. intros I. apply in_map_iff in I.
  destruct I as (v & E & Hv). pose proof (new_id_above s v Hv). lia.
Qed.

(** X4. Starting from any directory whose ids are pairwise distinct, not
    only the seed one, the ids are still pairwise distinct after any
    sequence of requests. *)
Theorem distinct_ids_are_kept (rs : list request) (s : db) :
  NoDup (map User.id s) -> NoDup (map User.id (snd (serve rs s))).
Proof.
  revert s. induction rs as [|r rs IH]; intros s D; [assumption|].
  rewrite serve_cons. cbn [snd]. apply IH. now apply handle_keeps_NoDup.
Qed.

Lemma distinct_ids_are_kept_witness :
  NoDup (map User.id
           (snd (serve [POST_users (UserCreate.mk "Ann" "ann@example.com"); GET_user 7]
                       [User.mk 7 "x" "y" false; User.mk (-3) "z" "w@v" true]))).
Proof.
  apply (distinct_ids_are_kept
           [POST_users (UserCreate.mk "Ann" "ann@example.com"); GET_user 7]
           [User.mk 7 "x" "y" false; User.mk (-3) "z" "w@v" true]).
  simpl. repeat constructor; simpl; intuition lia.
Defined.

(** ** A run of create calls, from any directory *)

(** X5. From any directory, a run of [create_user] calls never fails, also
    when names or emails repeat: it returns one record per call, with the
    names and emails given, appends them in call order, and numbers them
    upwards from one more than the greatest id held before (from 1 in an
    empty directory). *)
Theorem create_all_from_any_directory (ds : list UserCreate.t) (s : db) :
  exists us,
    create_all ds s = (Ok us, s ++ us) /\
    map User.id us
    = consecutive_from (max_default (map User.id s) 0 + 1) (List.length ds) /\
    map User.name us = map UserCreate.name ds /\
    map User.email us = map UserCreate.email ds /\
    Forall (fun u => User.is_active u = true) us.
Proof.
  revert s. induction ds as [|d ds IH]; intros s.
  - exists []. cbn. rewrite app_nil_r. repeat split. constructor.
  - cbn [create_all]. unfold bind at 1. rewrite create_user_eq. cbv zeta.
    set (u := User.mk _ _ _ _).
    destruct (IH (s ++ [u])) as (us & E & I & N & M & A).
    unfold bind at 1. rewrite E. unfold ret.
    exists (u :: us). rewrite <- app_assoc. split; [reflexivity|].
    cbn [map List.length]. rewrite consecutive_from_S, I, N, M.
    repeat split; [|now constructor].
    do 2 f_equal. rewrite map_app. cbn [map]. unfold u at 1. cbn [User.id].
    now rewrite max_default_snoc.
Qed.

(** ** Lookups over a sequence of requests *)

(** X6. A record that [get_user] finds under an id is the record it finds
    under that id after any further requests: a later create never takes
    its place, whatever ids the directory holds. *)
Theorem found_stays_found (rs : list request) (s : db) (user_id : Z) (u : User.t) :
  fst (get_user user_id s) = Ok u ->
  fst (get_user user_id (snd (serve rs s))) = Ok u.
Proof.
  rewrite serve_state, !get_user_eq, find_loop_app.
  destruct (find_loop user_id s); [trivial | discriminate].
Qed.

Lemma found_stays_found_witness :
  fst (get_user 2
         (snd (serve [POST_users (UserCreate.mk "Jane Smith" "jane@example.com");
                      GET_users] users_db)))
  = Ok (User.mk 2 "Jane Smith" "jane@example.com" true).
Proof.
  apply (found_stays_found
           [POST_users (UserCreate.mk "Jane Smith" "jane@example.com"); GET_users]
           users_db 2).
  reflexivity.
Defined.


(** X8. From any directory, serving requests only appends: the records held
    at the start stay at the front, one record is added per POST /users,
    and a sequence without any POST leaves the directory as it was. *)
Theorem serve_only_appends (rs : list request) (s : db) :
  exists added,
    snd (serve rs s) = s ++ added /\
    List.length added = List.length (filter is_post rs) /\
    List.length (snd (serve rs s))
    = (List.length s + List.length (filter is_post rs))%nat /\
    (filter is_post rs = [] -> snd (serve rs s) = s).
Proof.
  exists (created (fst (serve rs s))).
  pose proof (created_all_posts rs s) as L.
  split; [apply serve_state|]. split; [assumption|]. split.
  - now rewrite serve_state, length_app, L.
  - intros E. rewrite E in L. rewrite serve_state.
    destruct (created (fst (serve rs s))); [apply app_nil_r | discriminate].
Qed.

Lemma serve_only_appends_witness :
  snd (serve [GET_user 5; GET_users; GET_root; GET_user 1] users_db) = users_db.
Proof.
  destruct (serve_only_appends [GET_user 5; GET_users; GET_root; GET_user 1] users_db)
    as (added & _ & _ & _ & H).
  apply H. reflexivity.
Defined.

(** ** Lookups in the directories reached from the seed state *)

Lemma nth_error_consecutive (n : nat) :
  forall a i x, nth_error (consecutive_from a n) i = Some x -> x = a + Z.of_nat i.
Proof.
  induction n as [|n IH]; intros a i x.
  - destruct i; discriminate.
  - rewrite consecutive_from_S. destruct i as [|i]; cbn [nth_error].
    + intros [= <-]. lia.
    + intros H. apply IH in H. lia.
Qed.

Lemma dense_lookup (s : db) (k : Z) :
  dense s ->
  find_loop k s
  = if (1 <=? k) && (k <=? Z.of_nat (List.length s))
    then nth_error s (Z.to_nat (k - 1))
    else None.
Proof.
  intros D. destruct (find_loop k s) as [u|] eqn:F.
  - destruct (find_loop_some _ _ _ F) as (before & after & E & Hid & _).
    assert (N : nth_error (map User.id s) (List.length before) = Some k).
    { rewrite E, map_app, nth_error_app2; rewrite length_map; [|lia].
      rewrite Nat.sub_diag. cbn. now rewrite Hid. }
    rewrite D in N. apply nth_error_consecutive in N.
    assert (B : (List.length before < List.length s)%nat).
    { rewrite E, length_app. cbn. lia. }
    destruct (Z.leb_spec 1 k); [|lia].
    destruct (Z.leb_spec k (Z.of_nat (List.length s))); [|lia].
    cbn [andb]. replace (Z.to_nat (k - 1)) with (List.length before) by lia.
    rewrite E, nth_error_app2, Nat.sub_diag by lia. reflexivity.
  - apply find_loop_none in F.
    destruct (Z.leb_spec 1 k); [|reflexivity].
    destruct (Z.leb_spec k (Z.of_nat (List.length s))); [|reflexivity].
    exfalso. apply F.
    assert (I : In k (map User.id s)).
    { rewrite D. apply consecutive_from_in. lia. }
    apply in_map_iff in I. destruct I as (u & Hu & Hin). now exists u.
Qed.

(** X9. After any sequence of requests from the seed state, with [n] the
    number of POST /users calls among them, [get_user k] finds a record
    exactly for the ids 1 to 2 + n: it is the record at position k - 1 of
    the directory and carries the id k; every other id gets the 404. *)
Theorem get_user_from_seed (rs : list request) (k : Z) :
  let s := snd (serve rs users_db) in
  let n := Z.of_nat (List.length (filter is_post rs)) in
  if (1 <=? k) && (k <=? 2 + n)
  then exists u,
         get_user k s = (Ok u, s) /\ User.id u = k /\
         nth_error s (Z.to_nat (k - 1)) = Some u
  else get_user k s = (Raise (HTTPException 404 "User not found"), s).
Proof.
  cbv zeta.
  pose proof (dense_serve rs users_db dense_seed) as D.
  assert (L : Z.of_nat (List.length (snd (serve rs users_db)))
              = 2 + Z.of_nat (List.length (filter is_post rs))).
  { rewrite serve_state, length_app, created_all_posts. cbn [users_db List.length]. lia. }
  rewrite get_user_eq, (dense_lookup _ k D), L.
  destruct ((1 <=? k) && (k <=? 2 + Z.of_nat (List.length (filter is_post rs))))
    eqn:R; [|reflexivity].
  apply andb_prop in R. destruct R as [R1 R2].
  apply Z.leb_le in R1. apply Z.leb_le in R2.
  destruct (nth_error (snd (serve rs users_db)) (Z.to_nat (k - 1))) as [u|] eqn:N.
  - exists u. split; [reflexivity|]. split; [|reflexivity].
    assert (N' : nth_error (map User.id (snd (serve rs users_db))) (Z.to_nat (k - 1))
                 = Some (User.id u)) by (now apply map_nth_error).
    rewrite D in N'. apply nth_error_consecutive in N'. lia.
  - apply nth_error_None in N. lia.
Qed.

Example get_user_from_seed_after_two_posts :
  map (fun k => status (fst (get_user k
         (snd (serve [POST_users (UserCreate.mk "a" "b"); GET_user 9;
                      POST_users (UserCreate.mk "a" "b")] users_db)))))
      [0; 1; 2; 3; 4; 5; -1]
  = [404; 200; 200; 200; 200; 404; 404].
Proof. reflexivity. Qed.

(** ** Scores of created users, and comparing scores *)

Lemma log2_below_53 (p : positive) : Zpos p < 2 ^ 53 -> Z.log2 (Zpos p) < 53.
Proof. intros H. apply Z.log2_lt_pow2; lia. Qed.

(** Below 2^53 the floats compare as the ints they came from. *)
Lemma float_compare (x1 x2 : Z) :
  0 <= x1 < 2 ^ 53 -> 0 <= x2 < 2 ^ 53 ->
  exists f1 f2,
    float x1 = Ok f1 /\ float x2 = Ok f2 /\
    SFcompare f1 f2 = Some (x1 ?= x2).
Proof.
  intros H1 H2. unfold float.
  destruct x1 as [|p1|p1], x2 as [|p2|p2]; try lia.
  - exists (S754_zero false), (S754_zero false). repeat split.
  - destruct (binary_normalize_small p2 (log2_below_53 p2 ltac:(lia))) as (m2 & E2 & _).
    rewrite E2. do 2 eexists. repeat split.
  - destruct (binary_normalize_small p1 (log2_below_53 p1 ltac:(lia))) as (m1 & E1 & _).
    rewrite E1. do 2 eexists. repeat split.
  - pose proof (log2_below_53 p1 ltac:(lia)) as L1.
    pose proof (log2_below_53 p2 ltac:(lia)) as L2.
    destruct (binary_normalize_small p1 L1) as (m1 & E1 & V1).
    destruct (binary_normalize_small p2 L2) as (m2 & E2 & V2).
    rewrite E1, E2. do 2 eexists. split; [reflexivity|]. split; [reflexivity|].
    cbn [SFcompare]. f_equal.
    pose proof (Z.log2_nonneg (Zpos p1)) as N1.
    pose proof (Z.log2_nonneg (Zpos p2)) as N2.
    destruct (Z.log2_spec (Zpos p1) ltac:(lia)) as [Lo1 Hi1].
    destruct (Z.log2_spec (Zpos p2) ltac:(lia)) as [Lo2 Hi2].
    destruct (Z.compare_spec (Z.log2 (Zpos p1) - 52) (Z.log2 (Zpos p2) - 52)) as [C|C|C].
    + change (Pos.compare_cont Eq m1 m2) with (Zpos m1 ?= Zpos m2).
      rewrite V1, V2. replace (Z.log2 (Zpos p2)) with (Z.log2 (Zpos p1)) by lia.
      symmetry. apply Zmult_compare_compat_r.
      pose proof (pow2_pos (52 - Z.log2 (Zpos p1)) ltac:(lia)). lia.
    + symmetry. apply Z.compare_lt_iff.
      pose proof (Z.pow_le_mono_r 2 (Z.succ (Z.log2 (Zpos p1))) (Z.log2 (Zpos p2))
                    ltac:(lia) ltac:(lia)).
      lia.
    + symmetry. apply Z.compare_gt_iff.
      pose proof (Z.pow_le_mono_r 2 (Z.succ (Z.log2 (Zpos p2))) (Z.log2 (Zpos p1))
                    ltac:(lia) ltac:(lia)).
      lia.
Qed.

Lemma score_formula_nonneg (user : User.t) : 0 <= score_formula user.
Proof.
  unfold score_formula.
  destruct (in_dec ascii_dec "@"%char (list_ascii_of_string (User.email user)));
    destruct (User.is_active user); lia.
Qed.

(** X10. For two users whose formula values are below 2^53 (every name
    shorter than 9 * 10^14 characters), the two float scores compare, with
    [<] and [==], exactly as len(name) * 10 + email bonus + active bonus
    compare as integers: scores neither collapse nor change order. *)
Theorem scores_compare_as_formulas (u1 u2 : User.t) (s : db) :
  score_formula u1 < 2 ^ 53 -> score_formula u2 < 2 ^ 53 ->
  exists f1 f2,
    fst (calculate_user_score u1 s) = Ok f1 /\
    fst (calculate_user_score u2 s) = Ok f2 /\
    SFcompare f1 f2 = Some (score_formula u1 ?= score_formula u2) /\
    SFltb f1 f2 = (score_formula u1 <? score_formula u2) /\
    SFeqb f1 f2 = (score_formula u1 =? score_formula u2).
Proof.
  intros B1 B2. rewrite !calculate_user_score_eq. cbn [fst].
  pose proof (score_formula_nonneg u1). pose proof (score_formula_nonneg u2).
  destruct (float_compare (score_formula u1) (score_formula u2)) as (f1 & f2 & E1 & E2 & C);
    [lia | lia |].
  exists f1, f2. repeat split; try assumption.
  - unfold SFltb, Z.ltb. rewrite C. reflexivity.
  - unfold SFeqb. rewrite C.
    destruct (Z.compare_spec (score_formula u1) (score_formula u2)) as [E|E|E];
      symmetry; [apply Z.eqb_eq | apply Z.eqb_neq | apply Z.eqb_neq]; lia.
Qed.

Lemma scores_compare_as_formulas_witness :
  exists f1 f2,
    fst (calculate_user_score john users_db) = Ok f1 /\
    fst (calculate_user_score (User.mk 2 "Jane Smith" "jane@example.com" true) users_db)
    = Ok f2 /\
    SFcompare f1 f2
    = Some (score_formula john
            ?= score_formula (User.mk 2 "Jane Smith" "jane@example.com" true)) /\
    SFltb f1 f2
    = (score_formula john
       <? score_formula (User.mk 2 "Jane Smith" "jane@example.com" true)) /\
    SFeqb f1 f2
    = (score_formula john
       =? score_formula (User.mk 2 "Jane Smith" "jane@example.com" true)).
Proof.
  apply (scores_compare_as_formulas
           john (User.mk 2 "Jane Smith" "jane@example.com" true) users_db);
    vm_compute; reflexivity.
Defined.

(** X11. A record that [create_user] returns, for a name of a length a str
    can have, never scores 0.0: created users are active, so the score is
    a float above 0.0 that stands for an integer of at least 20. *)
Theorem created_user_scores_at_least_20 (user_data : UserCreate.t) (s0 s : db) :
  len (UserCreate.name user_data) <= PY_SSIZE_T_MAX ->
  exists u f v,
    fst (create_user user_data s0) = Ok u /\
    fst (calculate_user_score u s) = Ok f /\
    float_to_Z f = Some v /\
    20 <= v /\
    SFltb (S754_zero false) f = true.
Proof.
  intros V. rewrite create_user_eq. cbv zeta. cbn [fst].
  set (u := User.mk _ _ _ _).
  assert (Vu : valid_user u) by exact V.
  destruct (score_formula_range u Vu) as [_ Hi].
  assert (Lo : 20 <= score_formula u).
  { unfold score_formula, u. cbn [User.name User.email User.is_active].
    destruct (in_dec ascii_dec "@"%char
                (list_ascii_of_string (UserCreate.email user_data))); lia. }
  assert (L : Z.log2 (score_formula u) <= 1022)
    by (apply Z.log2_lt_pow2 in Hi; lia).
  destruct (float_pos (score_formula u) ltac:(lia) L)
    as (m & e & v & F & T & _ & X & H).
  exists u, (S754_finite false m e), v.
  rewrite calculate_user_score_eq, F.
  split; [reflexivity|]. split; [reflexivity|]. split; [assumption|].
  split; [|reflexivity].
  destruct (Z_lt_le_dec (score_formula u) (2 ^ 53)) as [S|S].
  - rewrite (X S). assumption.
  - destruct (Z.log2_spec (score_formula u) ltac:(lia)) as [P _].
    pose proof (Z.pow_le_mono_r 2 (Z.log2 (score_formula u) - 52)
                  (Z.log2 (score_formula u)) ltac:(lia) ltac:(lia)) as Q.
    change (2 ^ 53) with 9007199254740992 in S. lia.
Qed.

Lemma created_user_scores_at_least_20_witness :
  exists u f v,
    fst (create_user (UserCreate.mk "" "nobody") []) = Ok u /\
    fst (calculate_user_score u users_db) = Ok f /\
    float_to_Z f = Some v /\
    20 <= v /\
    SFltb (S754_zero false) f = true.
Proof.
  apply (created_user_scores_at_least_20 (UserCreate.mk "" "nobody") [] users_db).
  unfold len, PY_SSIZE_T_MAX. simpl. lia.
Defined.

(** X12. The score looks at three things only: how long the name is,
    whether the email has an "@" at all, and whether the user is active.
    The id, the characters of the name, and the number and the places of
    the "@" make no difference. *)
Theorem score_depends_on_three_features (u1 u2 : User.t) (s1 s2 : db) :
  String.length (User.name u1) = String.length (User.name u2) ->
  (contains_at (User.email u1) <-> contains_at (User.email u2)) ->
  User.is_active u1 = User.is_active u2 ->
  fst (calculate_user_score u1 s1) = fst (calculate_user_score u2 s2).
Proof.
  intros N E A. unfold calculate_user_score, lift, len. cbn [fst].
  rewrite N, A. rewrite <- !str_in_at in E.
  destruct (str_in "@" (User.email u1)), (str_in "@" (User.email u2));
    try reflexivity.
  - destruct E as [E _]. specialize (E eq_refl). discriminate.
  - destruct E as [_ E]. specialize (E eq_refl). discriminate.
Qed.

Lemma score_depends_on_three_features_witness :
  fst (calculate_user_score (User.mk 1 "John Doe" "john@example.com" true) users_db)
  = fst (calculate_user_score (User.mk 44 "abcdefgh" "@@" true) []).
Proof.
  apply (score_depends_on_three_features
           (User.mk 1 "John Doe" "john@example.com" true)
           (User.mk 44 "abcdefgh" "@@" true) users_db []).
  - reflexivity.
  - unfold contains_at. simpl. split; intros _.
    + left. reflexivity.
    + do 4 right. left. reflexivity.
  - reflexivity.
Defined.
